(** * AudioCoder JNI bridge: [libloud.cpp]

    A shallow embedding of the numeric code of
    [AudioCoder/src/main/jni/libloud.cpp]: the grid-square converter
    [WSPRLatLonToGSQ], the PCM synthesizer [WSPREncodeToPCM] and the
    frequency-list synthesizer [WSPREncodeToFrequencies].

    C [double] values are IEEE 754 binary64 numbers, modelled by
    [spec_float] with the operations of [SpecFloat] at precision 53 and
    maximal exponent 1024 (round to nearest, ties to even).  Integers are
    [Z] with the wrap-around of their C type written out.  C arrays are
    lists read and written by index. *)

From Stdlib Require Import ZArith List Lia Bool.
From Stdlib Require Import SpecFloat.
From stdpp Require Import base list strings pretty.

Local Open Scope Z_scope.

(** ** Binary64 arithmetic *)

Module Double.

Definition prec : Z := 53.
Definition emax : Z := 1024.

Definition double : Type := spec_float.

Definition add : double -> double -> double := SFadd prec emax.
Definition sub : double -> double -> double := SFsub prec emax.
Definition mul : double -> double -> double := SFmul prec emax.
Definition div : double -> double -> double := SFdiv prec emax.

(** The C comparisons [<], [>] and [>=]; each is false on a NaN. *)
Definition lt (x y : double) : bool := SFltb x y.
Definition gt (x y : double) : bool := SFltb y x.
Definition ge (x y : double) : bool := SFleb y x.
Definition le (x y : double) : bool := SFleb x y.

Definition isnan (x : double) : bool :=
  match x with S754_nan => true | _ => false end.

Definition is_finite (x : double) : bool :=
  match x with S754_zero _ | S754_finite _ _ _ => true | _ => false end.

(** [fabs]. *)
Definition abs : double -> double := SFabs.

Definition pzero : double := S754_zero false.
Definition pinf : double := S754_infinity false.
Definition ninf : double := S754_infinity true.
Definition nan : double := S754_nan.

(** Conversion of an integer to [double] (exact below [2^53]). *)
Definition of_Z (z : Z) : double := binary_normalize prec emax z 0 false.

(** A decimal literal [num / 10^k] of the source text, correctly rounded:
    numerator and denominator are below [2^53], so both convert exactly and
    the IEEE division rounds the exact quotient once. *)
Definition lit (num den : Z) : double := div (of_Z num) (of_Z den).

(** The magnitude of a finite number [m * 2^e] split into its integer part
    and whether a fractional part is left. *)
Definition int_part (m : positive) (e : Z) : Z * bool :=
  match e with
  | Zneg k => (Z.shiftr (Zpos m) (Zpos k),
               negb (Zpos m mod 2 ^ Zpos k =? 0))
  | _ => (Z.shiftl (Zpos m) e, false)
  end.

(** An integer magnitude with a sign, as a [double]. *)
Definition of_sign_mag (s : bool) (n : Z) : double :=
  match n with
  | Zpos p => binary_round prec emax s p 0
  | _ => S754_zero s
  end.

(** [floor] and [ceil] of the C library: exact, sign-preserving on zeros,
    the identity on infinities and NaN. *)
Definition floor (x : double) : double :=
  match x with
  | S754_finite s m e =>
      match e with
      | Zneg _ =>
          let '(q, frac) := int_part m e in
          if s then of_sign_mag true (if frac then q + 1 else q)
          else of_sign_mag false q
      | _ => x
      end
  | _ => x
  end.

Definition ceil (x : double) : double :=
  match x with
  | S754_finite s m e =>
      match e with
      | Zneg _ =>
          let '(q, frac) := int_part m e in
          if s then of_sign_mag true q
          else of_sign_mag false (if frac then q + 1 else q)
      | _ => x
      end
  | _ => x
  end.

(** Truncation toward zero, the value of a C cast from [double] to an
    integer type; [None] on infinities and NaN. *)
Definition trunc (x : double) : option Z :=
  match x with
  | S754_zero _ => Some 0
  | S754_finite s m e =>
      let q := fst (int_part m e) in Some (if s then - q else q)
  | _ => None
  end.

(** Nearest integer, ties away from zero (C's [round]). *)
Definition round (x : double) : option Z :=
  match x with
  | S754_zero _ => Some 0
  | S754_finite s m e =>
      let q :=
        match e with
        | Zneg k =>
            Z.shiftr (Zpos m + 2 ^ (Zpos k - 1)) (Zpos k)
        | _ => Z.shiftl (Zpos m) e
        end in
      Some (if s then - q else q)
  | _ => None
  end.

(** [|x| >= n] on the exact value of [x], for a positive integer [n]: an
    infinity is above every integer, a NaN is not, and a finite number
    [m * 2^e] is compared in integer arithmetic. *)
Definition abs_geb (x : double) (n : Z) : bool :=
  match x with
  | S754_zero _ => false
  | S754_infinity _ => true
  | S754_nan => false
  | S754_finite _ m e =>
      match e with
      | Zneg k => n * 2 ^ Zpos k <=? Zpos m
      | _ => n <=? Zpos m * 2 ^ e
      end
  end.

(** The values of the type: the finite ones have a mantissa of at most 53
    bits with the canonical exponent. *)
Definition is_binary64 (x : double) : bool := valid_binary prec emax x.

End Double.

Import Double.

#[global] Instance double_inhabited : Inhabited double := populate pzero.

Declare Scope double_scope.
Delimit Scope double_scope with dbl.
Bind Scope double_scope with double.
Infix "+" := add : double_scope.
Infix "-" := sub : double_scope.
Infix "*" := mul : double_scope.
Infix "/" := div : double_scope.

(** ** Values crossing the JNI boundary *)

(** A native method either returns a value or leaves a pending Java
    exception (the code calls [ThrowNew] and returns [NULL]). *)
Inductive jresult (A : Type) : Type :=
  | Threw (msg : string)
  | Returned (v : A).
Arguments Threw {A} msg.
Arguments Returned {A} v.

Definition is_returned {A} (r : jresult A) : bool :=
  match r with Returned _ => true | Threw _ => false end.

(** Conversions from [double] to the integer types of the code.  C defines
    them (truncation toward zero) when the truncated value fits the type; the
    model reduces any other finite value modulo the width of the type and
    sends infinities and NaN to 0. *)
Definition wrap_unsigned (bits : Z) (z : Z) : Z := z mod 2 ^ bits.
Definition wrap_signed (bits : Z) (z : Z) : Z :=
  (z + 2 ^ (bits - 1)) mod 2 ^ bits - 2 ^ (bits - 1).

Definition uint8 (z : Z) : Z := wrap_unsigned 8 z.
Definition int32 (z : Z) : Z := wrap_signed 32 z.

Definition char_of_double (d : double) : Z :=
  match trunc d with Some z => wrap_unsigned 8 z | None => 0 end.
Definition short_of_double (d : double) : Z :=
  match trunc d with Some z => wrap_signed 16 z | None => 0 end.
Definition int64_of_double (d : double) : Z :=
  match trunc d with Some z => wrap_signed 64 z | None => 0 end.

(** [NewStringUTF]: the characters of a C string up to its terminating 0. *)
Fixpoint NewStringUTF (cs : list Z) : string :=
  match cs with
  | [] => EmptyString
  | c :: cs' =>
      if c =? 0 then EmptyString
      else String (Ascii.ascii_of_N (Z.to_N c)) (NewStringUTF cs')
  end.

(** A [for (int i = 0; i < n; i++)] loop over a state. *)
Definition for_loop {S : Type} (n : nat) (body : nat -> S -> S) (s : S) : S :=
  fold_left (fun st i => body i st) (seq 0 n) s.

(** The loop that writes [f k] at index [base + k] for every [k] below [n]. *)
Definition fill {A : Type} (f : nat -> A) (base n : nat) (l : list A)
    : list A :=
  for_loop n (fun k l' => <[(base + k)%nat := f k]> l') l.

(** ** The grid-square converter *)

Module GSQ.

Local Open Scope double_scope.

(** [double ydiv_arr[] = {10, 1, 0.04166666, 1 / 240, 1 / 240 / 24}]: the
    last two initialisers are quotients of [int] constants, evaluated in
    integer arithmetic before the conversion to [double]. *)
Definition ydiv_arr : list double :=
  [ of_Z 10; of_Z 1; lit 4166666 100000000;
    of_Z (1 ÷ 240); of_Z (1 ÷ 240 ÷ 24) ].

Definition zeros10 : list double := replicate 10 pzero.

(** The arrays [ycalc] and [yn]. *)
Record locals : Type := Locals { ycalc : list double; yn : list double }.

(** One pass of the inner loop body, for coordinate [yi] and step [yk]. *)
Definition digit_step (yi yk : nat) (st : locals) : locals :=
  let ydiv := ydiv_arr !!! yk in
  let yres := (ycalc st !!! yi) / ydiv in
  let ycalc1 := <[yi := yres]> (ycalc st) in
  let ylp := if gt yres (of_Z 0) then floor yres else ceil yres in
  let ycalc2 := <[yi := ((ycalc1 !!! yi) - ylp) * ydiv]> ycalc1 in
  Locals ycalc2 (<[(2 * yk + yi)%nat := ylp]> (yn st)).

(** The longitude after the two [if] statements that shift it. *)
Definition normalize_lon (lon : double) : double :=
  let lon1 := if lt lon (of_Z (-180)) then lon + of_Z 360 else lon in
  if gt lon1 (of_Z 180) then lon1 - of_Z 360 else lon1.

(** The state of the arrays when the two loops are done. *)
Definition digits (lon lat : double) : locals :=
  let lon' := normalize_lon lon in
  let ycalc0 :=
    <[1%nat := lon' + of_Z 90]>
      (<[0%nat := (lat + of_Z 180) / of_Z 2]> zeros10) in
  for_loop 2 (fun yi => for_loop 5 (fun yk => digit_step yi yk))
    (Locals ycalc0 zeros10).

(** [char result[7]] as filled from [yn], with its terminating 0. *)
Definition result_chars (yn : list double) : list Z :=
  [ char_of_double ((yn !!! 0%nat) + of_Z 65);
    char_of_double ((yn !!! 1%nat) + of_Z 65);
    char_of_double ((yn !!! 2%nat) + of_Z 48);
    char_of_double ((yn !!! 3%nat) + of_Z 48);
    char_of_double ((yn !!! 4%nat) + of_Z 97);
    char_of_double ((yn !!! 5%nat) + of_Z 97);
    0%Z ].

Definition msg_nan : string := "Latitude or longitude is NaN!".
Definition msg_pole : string :=
  "Latitude is >= +-90 deg. Grid sq. doesn't work on poles.".

(** [Java_org_operatorfoundation_audiocoder_CJarInterface_WSPRLatLonToGSQ],
    with its parameters in the order of the source: [lon] first. *)
Definition WSPRLatLonToGSQ (lon lat : double) : jresult string :=
  if isnan lat || isnan lon then Threw msg_nan
  else if ge (abs lat) (of_Z 90) then Threw msg_pole
  else Returned (NewStringUTF (result_chars (yn (digits lon lat)))).

(** *** Closed forms used in the proofs *)

(** What one pass of the loop body does to a coordinate [y]: the new
    value of the coordinate and the digit. *)
Definition extract (y ydiv : double) : double * double :=
  let yres := y / ydiv in
  let ylp := if gt yres (of_Z 0) then floor yres else ceil yres in
  ((yres - ylp) * ydiv, ylp).

(** The digits of one coordinate along a list of divisors. *)
Fixpoint coord_digits (divs : list double) (y : double) : list double :=
  match divs with
  | [] => []
  | ydiv :: rest =>
      snd (extract y ydiv) :: coord_digits rest (fst (extract y ydiv))
  end.

Fixpoint interleave (a b : list double) : list double :=
  match a, b with
  | x :: a', y :: b' => x :: y :: interleave a' b'
  | _, _ => []
  end.

Definition shift_lat (lat : double) : double := (lat + of_Z 180) / of_Z 2.
Definition shift_lon (lon : double) : double :=
  normalize_lon lon + of_Z 90.

(** *** The specification's reading, for comparison *)

(** The divisors the specification lists: 10, 1, 1/24, 1/240, 1/5760. *)
Definition spec_ydiv_arr : list double :=
  [ of_Z 10; of_Z 1; lit 1 24; lit 1 240; lit 1 5760 ].

Definition char_between (lo hi : Z) (c : Ascii.ascii) : bool :=
  let n := Z.of_N (Ascii.N_of_ascii c) in (lo <=? n) && (n <=? hi).

(** The locator shape of the specification: six characters, two of
    ['A'..'R'], two of ['0'..'9'], two of ['a'..'x']. *)
Definition spec_locator_shape (s : string) : bool :=
  match String.list_ascii_of_string s with
  | [c1; c2; c3; c4; c5; c6] =>
      char_between 65 82 c1 && char_between 65 82 c2
      && char_between 48 57 c3 && char_between 48 57 c4
      && char_between 97 120 c5 && char_between 97 120 c6
  | _ => false
  end.

End GSQ.

(** ** The two synthesizers *)

Module Synth.

Local Open Scope double_scope.

Definition WSPR_SYMBOL_COUNT : nat := 162.
Definition WSPR_SYMBOL_LENGTH : nat := Z.to_nat 8192.

Definition sizeof_short : nat := 2.
Definition sizeof_int64 : nat := 8.

(** [M_PI] of [<math.h>], 3.14159265358979323846 as a binary64 number. *)
Definition M_PI : double := S754_finite false 7074237752028440 (-51).

Definition TAU : double := of_Z 2 * M_PI.

Definition volume : Z := 16383.

(** [snprintf(powr, 3, "%02d", (int) j_powr)]: the decimal digits of the
    power, padded with a zero to two characters, of which the buffer keeps
    the first two. *)
Definition snprintf_02d (j_powr : Z) : string :=
  let s := pretty j_powr in
  let s := if (String.length s <? 2)%nat then String.append "0" s else s in
  String.substring 0 2 s.

(** A [jbyte] is a signed 8-bit integer. *)
Definition jbyte (z : Z) : Z := wrap_signed 8 z.

(** The bytes of a [width]-byte integer as they lie in memory. *)
Definition bytes_le (width : nat) (z : Z) : list Z :=
  map (fun k => jbyte (Z.shiftr z (8 * Z.of_nat k))) (seq 0 width).

Definition bytes_be (width : nat) (z : Z) : list Z := rev (bytes_le width z).

Section WithEnvironment.

(** [sin] of the C library. *)
Variable sin : double -> double.

(** [LB_WSPR_Encode2symbolz] of [lbenc2/wenc.h]: for a callsign, a
    locator and a power string, the value it leaves in [symbols[i]]. *)
Variable LB_WSPR_Encode2symbolz : string -> string -> string -> nat -> Z.

(** The byte order of the machine the code runs on. *)
Variable big_endian_host : bool.

(** [uint8_t symbols[WSPR_SYMBOL_COUNT]] once the encoder has run. *)
Definition symbol_array (enc : nat -> Z) : list Z :=
  map (fun i => uint8 (enc i)) (seq 0 WSPR_SYMBOL_COUNT).

(** [SetByteArrayRegion(ret, 0, n * width, (jbyte * ) buf)]: the memory
    of the array, element after element. *)
Definition byte_region (width : nat) (buf : list Z) : list Z :=
  flat_map (if big_endian_host then bytes_be width else bytes_le width)
    buf.

(** *** PCM variant *)

Record pcm_state : Type := PcmState { symbols : list Z; sound : list Z }.

Definition amp : double := of_Z (Z.shiftr volume 2).

(** [double frequency = 1500 + ((int) j_offset) + symbols[i] * 1.4548]:
    the first sum is a sum of two [int]. *)
Definition pcm_frequency (j_offset symbol : Z) : double :=
  of_Z (int32 (1500 + j_offset)) + of_Z symbol * lit 14548 10000.

Definition pcm_theta (frequency : double) : double :=
  frequency * TAU / of_Z 12000.

(** [(short) (amp * sin(theta * (double) step))]. *)
Definition pcm_sample (theta : double) (step : nat) : Z :=
  short_of_double (amp * sin (theta * of_Z (Z.of_nat step))).

(** The body of the loop over the symbols. *)
Definition pcm_symbol (j_offset : Z) (lsb_mod : bool) (i : nat)
    (st : pcm_state) : pcm_state :=
  let symbols1 :=
    if lsb_mod then <[i := uint8 (3 - symbols st !!! i)]> (symbols st)
    else symbols st in
  let frequency := pcm_frequency j_offset (symbols1 !!! i) in
  let theta := pcm_theta frequency in
  let sound1 :=
    for_loop WSPR_SYMBOL_LENGTH
      (fun step snd =>
         <[(i * WSPR_SYMBOL_LENGTH + step)%nat := pcm_sample theta step]>
           snd)
      (sound st) in
  PcmState symbols1 sound1.

(** The symbol value the body computes the frequency from, for the
    value [sym] found in the array. *)
Definition pcm_symbol_used (lsb_mod : bool) (sym : Z) : Z :=
  if lsb_mod then uint8 (3 - sym) else sym.

(** The sample at position [step] of the block of a symbol [sym]. *)
Definition pcm_tone (j_offset : Z) (lsb_mod : bool) (sym : Z)
    (step : nat) : Z :=
  pcm_sample
    (pcm_theta (pcm_frequency j_offset (pcm_symbol_used lsb_mod sym)))
    step.

(** The [sound] buffer after the loop, for the symbols [enc] gives: it is
    allocated with [WSPR_SYMBOL_COUNT * WSPR_SYMBOL_LENGTH] entries and
    cleared by [memset]. *)
Definition pcm_sound (enc : nat -> Z) (j_offset : Z) (lsb_mod : bool)
    : list Z :=
  sound
    (for_loop WSPR_SYMBOL_COUNT (pcm_symbol j_offset lsb_mod)
       (PcmState (symbol_array enc)
          (replicate (WSPR_SYMBOL_COUNT * WSPR_SYMBOL_LENGTH) 0%Z))).

(** The invariant of the loop over the symbols, before iteration [n]. *)
Record pcm_inv (enc : nat -> Z) (j_offset : Z) (lsb_mod : bool)
    (n : nat) (st : pcm_state) : Prop := PcmInv {
  inv_symbols_length : length (symbols st) = WSPR_SYMBOL_COUNT;
  inv_symbols_ahead : forall k, (n <= k)%nat ->
    symbols st !! k = symbol_array enc !! k;
  inv_sound_length :
    length (sound st) = (WSPR_SYMBOL_COUNT * WSPR_SYMBOL_LENGTH)%nat;
  inv_sound_done : forall i step,
    (i < n)%nat -> (step < WSPR_SYMBOL_LENGTH)%nat ->
    sound st !! (i * WSPR_SYMBOL_LENGTH + step)%nat =
      Some (pcm_tone j_offset lsb_mod (uint8 (enc i)) step)
}.

(** [Java_org_operatorfoundation_audiocoder_CJarInterface_WSPREncodeToPCM].
    The code tests neither the result of [malloc] nor that of
    [NewByteArray]; both allocations are taken to succeed. *)
Definition WSPREncodeToPCM (j_calls j_loca : string) (j_powr j_offset : Z)
    (lsb_mod : bool) : list Z :=
  let powr := snprintf_02d j_powr in
  let enc := LB_WSPR_Encode2symbolz j_calls j_loca powr in
  byte_region sizeof_short (pcm_sound enc j_offset lsb_mod).

(** *** Frequency-list variant *)

(** [double frequency_hz = 1500.0 + ((double) j_offset)
                           + (symbol * 1.4648)], after the inversion of the
    symbol in LSB mode. *)
Definition frequency_hz (j_offset : Z) (lsb_mode : bool) (sym : Z)
    : double :=
  let symbol := if lsb_mode then uint8 (3 - sym) else sym in
  of_Z 1500 + of_Z j_offset + of_Z symbol * lit 14648 10000.

(** [frequencies[i] = (int64_t) (frequency_hz * 100.0)]. *)
Definition frequency_entry (j_offset : Z) (lsb_mode : bool) (sym : Z) : Z :=
  int64_of_double (frequency_hz j_offset lsb_mode sym * of_Z 100).

(** The [frequencies] array after the loop; [malloc] does not clear it,
    the model starts from zeros and the loop writes every entry. *)
Definition frequencies (enc : nat -> Z) (j_offset : Z) (lsb_mode : bool)
    : list Z :=
  for_loop WSPR_SYMBOL_COUNT
    (fun i fr =>
       <[i := frequency_entry j_offset lsb_mode (symbol_array enc !!! i)]>
         fr)
    (replicate WSPR_SYMBOL_COUNT 0%Z).

(** [Java_org_operatorfoundation_audiocoder_CJarInterface_WSPREncodeToFrequencies];
    [malloc_ok] and [new_array_ok] say whether [malloc] and
    [NewByteArray] succeed, the code returns [NULL] when one does not. *)
Definition WSPREncodeToFrequencies (malloc_ok new_array_ok : bool)
    (j_calls j_local : string) (j_powr j_offset : Z) (lsb_mode : bool)
    : option (list Z) :=
  let powr := snprintf_02d j_powr in
  let enc := LB_WSPR_Encode2symbolz j_calls j_local powr in
  if negb malloc_ok then None
  else
    let fr := frequencies enc j_offset lsb_mode in
    if negb new_array_ok then None
    else Some (byte_region sizeof_int64 fr).

End WithEnvironment.

(** The entry the specification describes: the frequency times 100,
    rounded to the nearest integer. *)
Definition spec_frequency_entry (j_offset : Z) (lsb_mode : bool) (sym : Z)
    : option Z :=
  round (frequency_hz j_offset lsb_mode sym * of_Z 100).

(** The entry in exact arithmetic: 100 times the base tone and the offset,
    plus 146.48 per symbol step, rounded down. *)
Definition exact_frequency_entry (j_offset : Z) (lsb_mode : bool) (sym : Z)
    : Z :=
  let symbol := if lsb_mode then (3 - sym)%Z else sym in
  (150000 + 100 * j_offset + 14648 * symbol / 100)%Z.

(** *** Reading the output back

    The inverse of [byte_region] on one element: the integer a reader of the
    same byte order finds in [width] bytes. *)

Fixpoint unsigned_le (bs : list Z) : Z :=
  match bs with
  | [] => 0%Z
  | b :: rest => (uint8 b + 256 * unsigned_le rest)%Z
  end.

Definition read_host (big_endian_host : bool) (width : nat) (bs : list Z)
    : Z :=
  wrap_signed (8 * Z.of_nat width)
    (unsigned_le (if big_endian_host then rev bs else bs)).

(** Element [i] of a region of [width]-byte elements. *)
Definition region_element (big_endian_host : bool) (width i : nat)
    (bytes : list Z) : Z :=
  read_host big_endian_host width (take width (drop (width * i) bytes)).

(** *** Stand-ins for the environment

    Closed instances of the statements below need some function in place
    of the C library's [sin] and of the encoder. *)

(** The Taylor polynomial [x - x^3/6 + x^5/120], in binary64. *)
Definition sin_taylor (x : double) : double :=
  let x3 := x * x * x in
  let x5 := x3 * x * x in
  x - x3 / of_Z 6 + x5 / of_Z 120.

(** An encoder that leaves [i mod 4] in [symbols[i]]. *)
Definition enc_cycle (_ _ _ : string) (i : nat) : Z := Z.of_nat i mod 4.

End Synth.

(** ** The remaining entry points *)

Module Bridge.

(** [Java_org_operatorfoundation_audiocoder_CJarInterface_radioCheck]:
    [(jint) (testvar * 42)], a product of two [int]. *)
Definition radioCheck (testvar : Z) : Z := int32 (testvar * 42).

(** [as_unsigned_char_array]: a fresh buffer of [GetArrayLength(array)]
    bytes into which [GetByteArrayRegion] copies the whole array; each signed
    [jbyte] is read back as an [unsigned char]. *)
Definition as_unsigned_char_array (array : list Z) : list Z :=
  map uint8 (take (length array) array).

Section Decoder.

(** The result type of the decoder and [jani_do_process] itself, which is
    declared in the file and defined elsewhere: it receives the buffer, its
    length as an [int], the dial frequency and the LSB flag. *)
Variable result : Type.
Variable jani_do_process : list Z -> Z -> double -> bool -> result.

(** [Java_org_operatorfoundation_audiocoder_CJarInterface_WSPRDecodeFromPcm]. *)
Definition WSPRDecodeFromPcm (sound : list Z) (dialfreq : double)
    (lsb : bool) : result :=
  let soundarr := as_unsigned_char_array sound in
  jani_do_process soundarr (int32 (Z.of_nat (length sound))) dialfreq lsb.

End Decoder.

End Bridge.

(** * Properties *)

(** ** Comparisons of binary64 numbers *)

Module DoubleFacts.

Lemma SFcompare_antisym (x y : double) :
  SFcompare y x = option_map CompOpp (SFcompare x y).
Proof.
  destruct x as [sx|sx| |sx mx ex], y as [sy|sy| |sy my ey]; cbn;
    try destruct sx; try destruct sy; cbn; try reflexivity.
  - rewrite (Z.compare_antisym ey ex).
    destruct (ey ?= ex); cbn; try reflexivity.
    rewrite CompOpp_involutive. f_equal.
    exact (Pos.compare_cont_antisym my mx Eq).
  - rewrite (Z.compare_antisym ey ex).
    destruct (ey ?= ex); cbn; try reflexivity.
    f_equal. symmetry. exact (Pos.compare_cont_antisym mx my Eq).
Qed.

Lemma le_not_gt x y : le x y = true -> gt x y = false.
Proof.
  unfold le, gt, SFltb, SFleb. rewrite (SFcompare_antisym x y).
  destruct (SFcompare x y) as [[]|]; cbn; congruence.
Qed.

Lemma le_not_lt_flip x y : le x y = true -> lt y x = false.
Proof. exact (le_not_gt x y). Qed.

Lemma lt_not_nan_l x y : lt x y = true -> isnan x = false.
Proof. by destruct x. Qed.

Lemma lt_not_nan_r x y : lt x y = true -> isnan y = false.
Proof. by destruct x, y. Qed.

Lemma le_not_nan_l x y : le x y = true -> isnan x = false.
Proof. by destruct x. Qed.

(** A number above 180 is not below -180. *)
Lemma gt_180_not_lt_m180 x :
  gt x (of_Z 180) = true -> lt x (of_Z (-180)) = false.
Proof. destruct x as [s|s| |s m e]; try destruct s; done. Qed.

(** *** The comparison with 90 on exact values *)

Lemma digits2_pos_bounds m :
  (2 ^ (Zpos (digits2_pos m) - 1) <= Zpos m < 2 ^ Zpos (digits2_pos m))%Z.
Proof.
  induction m as [m IH|m IH|]; cbn [digits2_pos]; [| |by cbn; lia].
  - rewrite Pos2Z.inj_succ, Z.pow_succ_r by lia.
    replace (Z.succ (Zpos (digits2_pos m)) - 1)
      with (Z.succ (Zpos (digits2_pos m) - 1)) by lia.
    rewrite Z.pow_succ_r by lia. lia.
  - rewrite Pos2Z.inj_succ, Z.pow_succ_r by lia.
    replace (Z.succ (Zpos (digits2_pos m)) - 1)
      with (Z.succ (Zpos (digits2_pos m) - 1)) by lia.
    rewrite Z.pow_succ_r by lia. lia.
Qed.

Lemma canonical_digits m e :
  canonical_mantissa prec emax m e = true ->
  Zpos (digits2_pos m) <= 53 /\ (-1074 < e -> Zpos (digits2_pos m) = 53).
Proof.
  unfold canonical_mantissa, fexp, emin, prec, emax.
  intros H%Z.eqb_eq. lia.
Qed.

(** A mantissa is below [2^53], and at least [2^52] unless the number is
    subnormal. *)
Lemma binary64_mantissa_bounds s m e :
  is_binary64 (S754_finite s m e) = true ->
  Zpos m < 2 ^ 53 /\ (-1074 < e -> 2 ^ 52 <= Zpos m).
Proof.
  unfold is_binary64. cbn [valid_binary]. unfold bounded.
  intros [Hc _]%andb_true_iff.
  destruct (canonical_digits m e Hc) as [Hd Hn].
  pose proof (digits2_pos_bounds m) as [Hlo Hhi].
  split.
  - eapply Z.lt_le_trans; [exact Hhi|]. apply Z.pow_le_mono_r; lia.
  - intros He. rewrite (Hn He) in Hlo. exact Hlo.
Qed.

(** The test [abs(x) >= 90] of the code decides [|x| >= 90]. *)
Lemma ge_abs_90 x :
  is_binary64 x = true -> ge (abs x) (of_Z 90) = abs_geb x 90.
Proof.
  intros Hv. destruct x as [s|s| |s m e]; try reflexivity.
  destruct (binary64_mantissa_bounds s m e Hv) as [Hhi Hlo].
  change (of_Z 90) with (S754_finite false 6333186975989760 (-46)).
  unfold ge, abs, SFabs, SFleb, SFcompare, abs_geb.
  destruct (Z.compare_spec (-46) e) as [<- | He | He].
  - change (90 * 2 ^ 46) with 6333186975989760.
    unfold Z.leb. cbn [Z.compare]. unfold Pos.compare.
    by destruct (Pos.compare_cont Eq 6333186975989760 m).
  - symmetry. destruct e as [|e|k].
    + apply Z.leb_le. lia.
    + apply Z.leb_le. pose proof (Z.pow_pos_nonneg 2 (Zpos e)). nia.
    + apply Z.leb_le.
      assert (2 ^ Zpos k <= 2 ^ 45) by (apply Z.pow_le_mono_r; lia).
      specialize (Hlo ltac:(lia)). lia.
  - symmetry. destruct e as [|e|k]; try lia.
    apply Z.leb_gt.
    assert (2 ^ 47 <= 2 ^ Zpos k) by (apply Z.pow_le_mono_r; lia).
    lia.
Qed.

(** *** The operations on sample values *)

Example floor_ceil_samples :
  floor (lit 269 10) = of_Z 26 /\ ceil (lit 269 10) = of_Z 27
  /\ floor (lit (-89) 10) = of_Z (-9) /\ ceil (lit (-89) 10) = of_Z (-8)
  /\ floor (lit 1 2) = pzero /\ ceil (lit 1 2) = of_Z 1
  /\ floor (lit (-1) 2) = of_Z (-1) /\ ceil (lit (-1) 2) = S754_zero true
  /\ floor (of_Z 7) = of_Z 7 /\ ceil (of_Z (-7)) = of_Z (-7)
  /\ floor pinf = pinf /\ ceil ninf = ninf /\ floor nan = nan.
Proof. split_and!; vm_compute; reflexivity. Qed.

Example trunc_round_samples :
  trunc (lit 15029296 100) = Some 150292 /\ round (lit 15029296 100) = Some 150293
  /\ trunc (lit (-269) 10) = Some (-26) /\ round (lit (-269) 10) = Some (-27)
  /\ round (lit 5 2) = Some 3 /\ round (lit (-5) 2) = Some (-3)
  /\ trunc (of_Z 150000) = Some 150000 /\ trunc pinf = None.
Proof. split_and!; vm_compute; reflexivity. Qed.

(** The decimal constants of the source as binary64 numbers. *)
Example literal_samples :
  lit 14548 10000 = S754_finite false 6551836737898598 (-52)
  /\ lit 14648 10000 = S754_finite false 6596872734172303 (-52)
  /\ lit 4166666 100000000 = S754_finite false 6004798542392741 (-57)
  /\ of_Z 1500 = S754_finite false 6597069766656000 (-42)
  /\ of_Z 0 = pzero.
Proof. split_and!; vm_compute; reflexivity. Qed.

End DoubleFacts.

(** ** Loops *)

Section LoopFacts.
Context {S : Type}.
Implicit Types (body : nat -> S -> S) (s : S).

Lemma for_loop_0 body s : for_loop 0 body s = s.
Proof. reflexivity. Qed.

Lemma for_loop_S n body s :
  for_loop (Datatypes.S n) body s = body n (for_loop n body s).
Proof. unfold for_loop. rewrite seq_S, fold_left_app. reflexivity. Qed.

(** The invariant rule: [P i] holds before iteration [i]. *)
Lemma for_loop_ind (P : nat -> S -> Prop) n body s :
  P 0%nat s ->
  (forall i st, (i < n)%nat -> P i st -> P (Datatypes.S i) (body i st)) ->
  P n (for_loop n body s).
Proof.
  intros H0 Hstep.
  assert (forall k, (k <= n)%nat -> P k (for_loop k body s)) as H.
  { induction k as [|k IH]; intros Hk; [exact H0|].
    rewrite for_loop_S. apply Hstep; [lia|]. apply IH. lia. }
  apply H. lia.
Qed.
End LoopFacts.

Section FillFacts.
Context {A : Type}.
Variables (f : nat -> A) (base : nat).

Lemma fill_length n l : length (fill f base n l) = length l.
Proof.
  unfold fill.
  apply (for_loop_ind (fun _ l' => length l' = length l)); [done|].
  intros i st _ H. by rewrite length_insert.
Qed.

Lemma fill_lookup n l j :
  (base + n <= length l)%nat ->
  fill f base n l !! j =
    if decide (base <= j < base + n)%nat then Some (f (j - base)%nat)
    else l !! j.
Proof.
  intros Hlen. induction n as [|n IH].
  - unfold fill. rewrite for_loop_0. case_decide; [lia|done].
  - unfold fill. rewrite for_loop_S. fold (fill f base n l).
    destruct (decide (j = base + n)%nat) as [->|Hne].
    + rewrite list_lookup_insert_eq by (rewrite fill_length; lia).
      clear IH. case_decide; [|lia].
      replace (base + n - base)%nat with n by lia. done.
    + rewrite list_lookup_insert_ne by done.
      rewrite IH by lia. repeat case_decide; try lia; done.
Qed.
End FillFacts.

(** ** The grid-square converter *)

Module GSQ_Facts.

Import GSQ DoubleFacts.
Local Open Scope double_scope.

(** The loop body in terms of [extract]. *)
Lemma digit_step_extract yi yk yc yd :
  (yi < length yc)%nat ->
  digit_step yi yk (Locals yc yd) =
    Locals (<[yi := fst (extract (yc !!! yi) (ydiv_arr !!! yk))]> yc)
      (<[(2 * yk + yi)%nat :=
           snd (extract (yc !!! yi) (ydiv_arr !!! yk))]> yd).
Proof.
  intros Hyi. unfold digit_step, extract. cbn [ycalc yn fst snd].
  rewrite list_lookup_total_insert_eq by done.
  by rewrite list_insert_insert_eq.
Qed.

Ltac digit_step_once :=
  rewrite digit_step_extract by (cbn [length]; lia);
  cbn [lookup_total list_lookup_total insert list_insert Nat.mul Nat.add];
  match goal with
  | |- context [extract ?y ?d] =>
      lazymatch y with
      | context [extract _ _] => fail
      | _ => generalize (extract y d); intros ?
      end
  end.

(** The two loops compute the digits of each coordinate on its own and
    store them alternately: those of the shifted [lat] at the even indices
    of [yn], those of the shifted [lon] at the odd ones. *)
Lemma digits_yn lon lat :
  yn (digits lon lat) =
    interleave (coord_digits ydiv_arr (shift_lat lat))
      (coord_digits ydiv_arr (shift_lon lon)).
Proof.
  unfold digits, shift_lat, shift_lon.
  generalize (normalize_lon lon + of_Z 90), ((lat + of_Z 180) / of_Z 2).
  intros b a.
  unfold for_loop. cbn [seq fold_left].
  unfold zeros10. cbn [replicate insert list_insert].
  unfold ydiv_arr. cbn [coord_digits].
  change (of_Z 10) with (ydiv_arr !!! 0%nat).
  change (of_Z 1) with (ydiv_arr !!! 1%nat).
  change (lit 4166666 100000000) with (ydiv_arr !!! 2%nat).
  change (of_Z (1 ÷ 240)) with (ydiv_arr !!! 3%nat).
  change (of_Z (1 ÷ 240 ÷ 24)) with (ydiv_arr !!! 4%nat).
  do 10 digit_step_once.
  reflexivity.
Qed.

(** The result depends on the longitude through its normal form only. *)
Lemma WSPRLatLonToGSQ_normalized lon lon' lat :
  isnan lon = isnan lon' ->
  normalize_lon lon = normalize_lon lon' ->
  WSPRLatLonToGSQ lon lat = WSPRLatLonToGSQ lon' lat.
Proof.
  intros Hnan Hnorm. unfold WSPRLatLonToGSQ.
  rewrite !digits_yn. unfold shift_lon. by rewrite Hnan, Hnorm.
Qed.

Lemma normalize_lon_in_range lon :
  le (of_Z (-180)) lon = true -> le lon (of_Z 180) = true ->
  normalize_lon lon = lon.
Proof.
  intros Hlo Hhi. unfold normalize_lon.
  rewrite (le_not_lt_flip _ _ Hlo). by rewrite (le_not_gt _ _ Hhi).
Qed.

Lemma normalize_lon_above lon :
  gt lon (of_Z 180) = true -> normalize_lon lon = lon - of_Z 360.
Proof.
  intros H. unfold normalize_lon.
  rewrite (gt_180_not_lt_m180 _ H). by rewrite H.
Qed.

Lemma normalize_lon_below lon :
  lt lon (of_Z (-180)) = true ->
  le (lon + of_Z 360) (of_Z 180) = true ->
  normalize_lon lon = lon + of_Z 360.
Proof.
  intros H Hhi. unfold normalize_lon. rewrite H.
  by rewrite (le_not_gt _ _ Hhi).
Qed.

(** For every whole number of degrees [k] in [-179 .. 179], the shifted
    longitudes [k + 360] and [k - 360] are brought back to [k]. *)
Lemma normalize_lon_whole_degrees :
  forallb
    (fun k => SFeqb (normalize_lon (of_Z (k + 360))) (of_Z k)
              && SFeqb (normalize_lon (of_Z (k - 360))) (of_Z k))
    (map (fun i => (Z.of_nat i - 179)%Z) (seq 0 359)) = true.
Proof. vm_compute. reflexivity. Qed.

Lemma coord_digits_length divs y :
  length (coord_digits divs y) = length divs.
Proof.
  revert y. induction divs as [|d divs IH]; intros y; [done|].
  cbn [coord_digits length]. by rewrite IH.
Qed.

Lemma interleave_lookup (a b : list double) k :
  length a = length b ->
  interleave a b !! (2 * k)%nat = a !! k
  /\ interleave a b !! (2 * k + 1)%nat = b !! k.
Proof.
  revert b k. induction a as [|x a IH]; intros [|y b] k Hlen;
    try discriminate Hlen; [done|].
  destruct k as [|k]; [done|].
  replace (2 * S k)%nat with (S (S (2 * k))) by lia.
  cbn [interleave Nat.add lookup list_lookup].
  apply IH. by injection Hlen.
Qed.

(** Entry [2 * k + 1] of [yn] is digit [k] of the shifted longitude. *)
Lemma yn_lon_digit lon lat k :
  yn (digits lon lat) !! (2 * k + 1)%nat
  = coord_digits ydiv_arr (shift_lon lon) !! k.
Proof.
  rewrite digits_yn. apply interleave_lookup.
  by rewrite !coord_digits_length.
Qed.

(** Entry [2 * k] of [yn] is digit [k] of the shifted latitude. *)
Lemma yn_lat_digit lon lat k :
  yn (digits lon lat) !! (2 * k)%nat
  = coord_digits ydiv_arr (shift_lat lat) !! k.
Proof.
  rewrite digits_yn. apply interleave_lookup.
  by rewrite !coord_digits_length.
Qed.

(** *** Digit extraction *)

(** C1 (the code departs from the claim).  The divisor table of the code is
    10, 1, 0.04166666, 0, 0: the initialisers [1 / 240] and [1 / 240 / 24]
    are integer quotients, both 0.  It is not the table 10, 1, 1/24, 1/240,
    1/5760.  At longitude -105 and latitude 40 the fourth and fifth steps
    of both coordinates divide zero by zero and yield NaN; at longitude
    -105.5 and latitude 40.5 the fourth step yields an infinity. *)
Theorem ydiv_arr_integer_quotients :
  ydiv_arr = [of_Z 10; of_Z 1; lit 4166666 100000000; pzero; pzero]
  /\ ydiv_arr !! 2%nat <> spec_ydiv_arr !! 2%nat
  /\ ydiv_arr !! 3%nat <> spec_ydiv_arr !! 3%nat
  /\ ydiv_arr !! 4%nat <> spec_ydiv_arr !! 4%nat
  /\ drop 6 (yn (digits (of_Z (-105)) (of_Z 40))) = [nan; nan; nan; nan]
  /\ drop 6 (yn (digits (lit (-1055) 10) (lit 405 10)))
     = [pinf; ninf; nan; nan].
Proof.
  split_and!; try (vm_compute; reflexivity);
    intros H; vm_compute in H; discriminate H.
Qed.

(** *** Shape of the result *)

(** C2 (the code departs from the claim).  Longitude 179 with latitude 0 is
    finite and inside the latitude bound, and the converter returns
    [J[08ay]: its second character is ['['] and its sixth is ['y'], so the
    string is not of the shape [A-R][A-R][0-9][0-9][a-x][a-x].  Longitude 0
    with latitude 1.9999998 gives [JJ00ya], and longitude -1105 with
    latitude 0 gives the one-character string [J]. *)
Theorem locator_leaves_alphabets :
  is_finite (of_Z 179) = true
  /\ lt (abs (of_Z 0)) (of_Z 90) = true
  /\ WSPRLatLonToGSQ (of_Z 179) (of_Z 0) = Returned "J[08ay"
  /\ spec_locator_shape "J[08ay" = false
  /\ WSPRLatLonToGSQ (of_Z 0) (lit 19999998 10000000) = Returned "JJ00ya"
  /\ spec_locator_shape "JJ00ya" = false
  /\ WSPRLatLonToGSQ (of_Z (-1105)) (of_Z 0) = Returned "J".
Proof. split_and!; vm_compute; reflexivity. Qed.

(** *** Validation *)

(** C9.  For a binary64 latitude: when the latitude or the longitude is
    NaN the converter throws the invalid-input message; when neither is NaN
    and the absolute value of the latitude is at least 90 (an infinite
    latitude included) it throws the pole message; in both cases it returns
    no string; and when neither is NaN and the absolute latitude is below 90
    neither error branch is taken and the string built from the digits is
    returned. *)
Theorem WSPRLatLonToGSQ_validation (lon lat : double) :
  is_binary64 lat = true ->
  (isnan lat = true \/ isnan lon = true ->
     WSPRLatLonToGSQ lon lat = Threw msg_nan)
  /\ (isnan lat = false -> isnan lon = false -> abs_geb lat 90 = true ->
      WSPRLatLonToGSQ lon lat = Threw msg_pole)
  /\ (isnan lat = true \/ isnan lon = true \/ abs_geb lat 90 = true ->
      is_returned (WSPRLatLonToGSQ lon lat) = false)
  /\ (isnan lat = false -> isnan lon = false -> abs_geb lat 90 = false ->
      WSPRLatLonToGSQ lon lat
      = Returned (NewStringUTF (result_chars (yn (digits lon lat))))).
Proof.
  intros Hv. unfold WSPRLatLonToGSQ. rewrite (ge_abs_90 lat Hv).
  split_and!.
  - intros [-> | ->]; [done|]. by rewrite orb_true_r.
  - intros -> -> ->. done.
  - intros [-> | [-> | ->]]; [done| by rewrite orb_true_r |].
    by destruct (isnan lat || isnan lon).
  - intros -> -> ->. done.
Qed.

Lemma WSPRLatLonToGSQ_validation_witness :
  WSPRLatLonToGSQ nan (of_Z 40) = Threw msg_nan
  /\ WSPRLatLonToGSQ (of_Z (-105)) (of_Z 90) = Threw msg_pole
  /\ is_returned (WSPRLatLonToGSQ (of_Z (-105)) (of_Z (-95))) = false
  /\ WSPRLatLonToGSQ (of_Z (-105)) (of_Z 40)
     = Returned
         (NewStringUTF
            (result_chars (yn (digits (of_Z (-105)) (of_Z 40))))).
Proof.
  split; [|split; [|split]].
  - apply (proj1 (WSPRLatLonToGSQ_validation nan (of_Z 40) eq_refl)).
    right. reflexivity.
  - apply (proj1 (proj2
      (WSPRLatLonToGSQ_validation (of_Z (-105)) (of_Z 90) eq_refl)));
      reflexivity.
  - apply (proj1 (proj2 (proj2
      (WSPRLatLonToGSQ_validation (of_Z (-105)) (of_Z (-95)) eq_refl)))).
    right. right. reflexivity.
  - apply (proj2 (proj2 (proj2
      (WSPRLatLonToGSQ_validation (of_Z (-105)) (of_Z 40) eq_refl))));
      reflexivity.
Defined.

(** C10.  For an infinite longitude and a binary64 latitude that is not NaN
    and of absolute value below 90, neither check fires; normalization
    leaves the infinity in place, digit extraction yields the infinity as
    the first longitude digit and NaN as the second and third, and the
    converter returns a string. *)
Theorem WSPRLatLonToGSQ_infinite_longitude (lat : double) (s : bool) :
  is_binary64 lat = true -> isnan lat = false -> abs_geb lat 90 = false ->
  isnan lat || isnan (S754_infinity s) = false
  /\ ge (abs lat) (of_Z 90) = false
  /\ normalize_lon (S754_infinity s) = S754_infinity s
  /\ yn (digits (S754_infinity s) lat) !! 1%nat = Some (S754_infinity s)
  /\ yn (digits (S754_infinity s) lat) !! 3%nat = Some nan
  /\ yn (digits (S754_infinity s) lat) !! 5%nat = Some nan
  /\ WSPRLatLonToGSQ (S754_infinity s) lat
     = Returned
         (NewStringUTF (result_chars (yn (digits (S754_infinity s) lat)))).
Proof.
  intros Hv Hnan Hlat.
  assert (ge (abs lat) (of_Z 90) = false) as Hge
    by (by rewrite (ge_abs_90 lat Hv)).
  split_and!.
  - by rewrite Hnan.
  - done.
  - by destruct s.
  - rewrite (yn_lon_digit _ lat 0). by destruct s.
  - rewrite (yn_lon_digit _ lat 1). by destruct s.
  - rewrite (yn_lon_digit _ lat 2). by destruct s.
  - unfold WSPRLatLonToGSQ. by rewrite Hnan, Hge.
Qed.

Lemma WSPRLatLonToGSQ_infinite_longitude_witness :
  abs_geb (of_Z 40) 90 = false
  /\ yn (digits pinf (of_Z 40)) !! 1%nat = Some pinf
  /\ is_returned (WSPRLatLonToGSQ ninf (of_Z 40)) = true.
Proof.
  split; [reflexivity|]. split.
  - apply (WSPRLatLonToGSQ_infinite_longitude (of_Z 40) false);
      reflexivity.
  - unfold ninf.
    rewrite (proj2 (proj2 (proj2 (proj2 (proj2 (proj2
      (WSPRLatLonToGSQ_infinite_longitude (of_Z 40) true
         eq_refl eq_refl eq_refl))))))).
    reflexivity.
Defined.

(** *** Longitude shifts *)

(** C6 as stated fails: longitude -180 and longitude 180 = -180 + 360 are
    both accepted and neither is shifted, and the two results differ. *)
Lemma lon_m180_and_180_differ :
  of_Z (-180) + of_Z 360 = of_Z 180
  /\ normalize_lon (of_Z 180) = of_Z 180
  /\ WSPRLatLonToGSQ (of_Z (-180)) (of_Z 0) = Returned "J800aa"
  /\ WSPRLatLonToGSQ (of_Z 180) (of_Z 0) = Returned "J\00aa"
  /\ WSPRLatLonToGSQ (of_Z (-180)) (of_Z 0)
     <> WSPRLatLonToGSQ (of_Z 180) (of_Z 0).
Proof.
  split_and!; try (vm_compute; reflexivity).
  intros H; vm_compute in H; discriminate H.
Qed.

(** C6, amended.  A longitude in the closed interval from -180 to 180 is
    left as it is.  A longitude above 180 has 360 subtracted once, one
    below -180 has 360 added once.  So when [lon] lies in the closed
    interval and [lon'] lies outside it and the single shift brings [lon']
    to [lon], the converter gives the same result for [lon'] as for [lon],
    at every latitude. *)
Theorem lon_shift_same_locator (lon lon' lat : double) :
  le (of_Z (-180)) lon = true -> le lon (of_Z 180) = true ->
  (gt lon' (of_Z 180) = true /\ lon' - of_Z 360 = lon)
  \/ (lt lon' (of_Z (-180)) = true /\ lon' + of_Z 360 = lon) ->
  normalize_lon lon = lon
  /\ normalize_lon lon' = lon
  /\ WSPRLatLonToGSQ lon' lat = WSPRLatLonToGSQ lon lat.
Proof.
  intros Hlo Hhi Hshift.
  pose proof (normalize_lon_in_range lon Hlo Hhi) as Hin.
  assert (normalize_lon lon' = lon /\ isnan lon' = false) as [Hout Hnan'].
  { destruct Hshift as [[Hgt <-] | [Hlt Heq]].
    - split; [by apply normalize_lon_above|].
      exact (lt_not_nan_r _ _ Hgt).
    - split; [|exact (lt_not_nan_l _ _ Hlt)].
      rewrite normalize_lon_below; [done..|]. by rewrite Heq. }
  split; [done|]. split; [done|].
  apply WSPRLatLonToGSQ_normalized; [|congruence].
  rewrite Hnan'. symmetry.
  rewrite <- (le_not_nan_l _ _ Hhi). done.
Qed.

Lemma lon_shift_same_locator_witness :
  (gt (of_Z 260) (of_Z 180) = true /\ of_Z 260 - of_Z 360 = of_Z (-100))
  /\ WSPRLatLonToGSQ (of_Z 260) (of_Z 40)
     = WSPRLatLonToGSQ (of_Z (-100)) (of_Z 40)
  /\ WSPRLatLonToGSQ (of_Z (-190)) (of_Z 40)
     = WSPRLatLonToGSQ (of_Z 170) (of_Z 40).
Proof.
  split; [split; reflexivity|]. split.
  - apply (lon_shift_same_locator (of_Z (-100)) (of_Z 260) (of_Z 40));
      [reflexivity | reflexivity | left; split; reflexivity].
  - apply (lon_shift_same_locator (of_Z 170) (of_Z (-190)) (of_Z 40));
      [reflexivity | reflexivity | right; split; reflexivity].
Defined.

End GSQ_Facts.

(** ** The synthesizers *)

Module Synth_Facts.

Import Synth.
Local Open Scope double_scope.

Lemma WSPR_SYMBOL_LENGTH_Z : Z.of_nat WSPR_SYMBOL_LENGTH = 8192%Z.
Proof. unfold WSPR_SYMBOL_LENGTH. lia. Qed.

Lemma WSPR_SYMBOL_COUNT_Z : Z.of_nat WSPR_SYMBOL_COUNT = 162%Z.
Proof. reflexivity. Qed.

(** *** The symbol array *)

Lemma symbol_array_length enc :
  length (symbol_array enc) = WSPR_SYMBOL_COUNT.
Proof. unfold symbol_array. by rewrite length_map, length_seq. Qed.

Lemma symbol_array_lookup enc i :
  (i < WSPR_SYMBOL_COUNT)%nat ->
  symbol_array enc !! i = Some (uint8 (enc i)).
Proof.
  intros Hi. unfold symbol_array.
  rewrite list_lookup_fmap, lookup_seq_lt by done. done.
Qed.

Lemma symbol_array_total enc i :
  (i < WSPR_SYMBOL_COUNT)%nat -> symbol_array enc !!! i = uint8 (enc i).
Proof.
  intros Hi. apply list_lookup_total_correct, symbol_array_lookup, Hi.
Qed.

Lemma uint8_small z : (0 <= z < 256)%Z -> uint8 z = z.
Proof. intros H. unfold uint8, wrap_unsigned. by apply Z.mod_small. Qed.

(** *** The byte region *)

Lemma bytes_le_length width z : length (bytes_le width z) = width.
Proof. unfold bytes_le. by rewrite length_map, length_seq. Qed.

Lemma bytes_be_length width z : length (bytes_be width z) = width.
Proof. unfold bytes_be. by rewrite length_rev, bytes_le_length. Qed.

Lemma byte_region_length big_endian_host width buf :
  length (byte_region big_endian_host width buf)
  = (width * length buf)%nat.
Proof.
  unfold byte_region. induction buf as [|z buf IH]; cbn [flat_map length].
  - lia.
  - rewrite length_app, IH.
    destruct big_endian_host;
      rewrite ?bytes_be_length, ?bytes_le_length; lia.
Qed.

(** *** The loop of the PCM variant *)

Section Pcm.
Variable sin : double -> double.

Local Opaque WSPR_SYMBOL_LENGTH.

(** One iteration fills the block of symbol [i]. *)
Lemma pcm_symbol_sound j_offset lsb_mod i st :
  (i < length (symbols st))%nat ->
  sound (pcm_symbol sin j_offset lsb_mod i st) =
    fill (pcm_tone sin j_offset lsb_mod (symbols st !!! i))
      (i * WSPR_SYMBOL_LENGTH) WSPR_SYMBOL_LENGTH (sound st).
Proof.
  intros Hi. unfold pcm_symbol, fill, pcm_tone, pcm_symbol_used.
  cbn [sound]. destruct lsb_mod; [|done].
  by rewrite list_lookup_total_insert_eq.
Qed.

(** One iteration writes no entry of [symbols] but entry [i]. *)
Lemma pcm_symbol_symbols j_offset lsb_mod i st :
  length (symbols (pcm_symbol sin j_offset lsb_mod i st))
  = length (symbols st)
  /\ forall k, k <> i ->
       symbols (pcm_symbol sin j_offset lsb_mod i st) !! k
       = symbols st !! k.
Proof.
  unfold pcm_symbol. cbn [symbols]. destruct lsb_mod; [|done].
  split; [by rewrite length_insert|].
  intros k Hk. by rewrite list_lookup_insert_ne.
Qed.

Lemma pcm_inv_step enc j_offset lsb_mod n st :
  (n < WSPR_SYMBOL_COUNT)%nat ->
  pcm_inv sin enc j_offset lsb_mod n st ->
  pcm_inv sin enc j_offset lsb_mod (S n)
    (pcm_symbol sin j_offset lsb_mod n st).
Proof.
  intros Hn [Hsl Hsa Hdl Hdd].
  destruct (pcm_symbol_symbols j_offset lsb_mod n st) as [Hl' Hk'].
  assert (symbols st !!! n = uint8 (enc n)) as Hcur.
  { apply list_lookup_total_correct. rewrite Hsa by lia.
    by apply symbol_array_lookup. }
  split.
  - by rewrite Hl'.
  - intros k Hk. rewrite Hk' by lia. apply Hsa. lia.
  - rewrite pcm_symbol_sound by lia. by rewrite fill_length.
  - intros i step Hi Hstep.
    rewrite pcm_symbol_sound by lia.
    rewrite fill_lookup by (rewrite Hdl; nia).
    case_decide as Hin.
    + assert (i = n) as -> by nia.
      rewrite Hcur. do 2 f_equal. lia.
    + apply Hdd; [|done].
      destruct (decide (i = n)) as [->|]; [exfalso; apply Hin; lia | lia].
Qed.

Lemma pcm_sound_inv enc j_offset lsb_mod :
  pcm_inv sin enc j_offset lsb_mod WSPR_SYMBOL_COUNT
    (for_loop WSPR_SYMBOL_COUNT (pcm_symbol sin j_offset lsb_mod)
       (PcmState (symbol_array enc)
          (replicate (WSPR_SYMBOL_COUNT * WSPR_SYMBOL_LENGTH) 0%Z))).
Proof.
  apply (for_loop_ind (pcm_inv sin enc j_offset lsb_mod)).
  - split; cbn [symbols sound].
    + apply symbol_array_length.
    + done.
    + apply length_replicate.
    + intros; lia.
  - intros i st Hi Hinv. by apply pcm_inv_step.
Qed.

Lemma pcm_sound_length enc j_offset lsb_mod :
  length (pcm_sound sin enc j_offset lsb_mod)
  = (WSPR_SYMBOL_COUNT * WSPR_SYMBOL_LENGTH)%nat.
Proof.
  apply (inv_sound_length _ _ _ _ _ _ (pcm_sound_inv enc j_offset lsb_mod)).
Qed.

(** The sample at position [step] of block [i]. *)
Lemma pcm_sound_lookup enc j_offset lsb_mod i step :
  (i < WSPR_SYMBOL_COUNT)%nat -> (step < WSPR_SYMBOL_LENGTH)%nat ->
  pcm_sound sin enc j_offset lsb_mod
    !! (i * WSPR_SYMBOL_LENGTH + step)%nat
  = Some (pcm_tone sin j_offset lsb_mod (uint8 (enc i)) step).
Proof.
  apply (inv_sound_done _ _ _ _ _ _ (pcm_sound_inv enc j_offset lsb_mod)).
Qed.

(** Two runs whose blocks agree produce the same buffer. *)
Lemma pcm_sound_ext enc enc' j_offset j_offset' lsb_mod lsb_mod' :
  (forall i step, (i < WSPR_SYMBOL_COUNT)%nat ->
     pcm_tone sin j_offset lsb_mod (uint8 (enc i)) step
     = pcm_tone sin j_offset' lsb_mod' (uint8 (enc' i)) step) ->
  pcm_sound sin enc j_offset lsb_mod
  = pcm_sound sin enc' j_offset' lsb_mod'.
Proof.
  intros Hsame. apply list_eq. intros j.
  assert (0 < WSPR_SYMBOL_LENGTH)%nat as Hpos
    by (pose proof WSPR_SYMBOL_LENGTH_Z; lia).
  destruct (decide (j < WSPR_SYMBOL_COUNT * WSPR_SYMBOL_LENGTH)%nat)
    as [Hj|Hj].
  - rewrite (Nat.div_mod_eq j WSPR_SYMBOL_LENGTH).
    rewrite (Nat.mul_comm WSPR_SYMBOL_LENGTH).
    assert (j `div` WSPR_SYMBOL_LENGTH < WSPR_SYMBOL_COUNT)%nat as Hi
      by (apply Nat.Div0.div_lt_upper_bound; lia).
    assert (j `mod` WSPR_SYMBOL_LENGTH < WSPR_SYMBOL_LENGTH)%nat as Hs
      by (apply Nat.mod_upper_bound; lia).
    rewrite !pcm_sound_lookup by done. f_equal. by apply Hsame.
  - rewrite !(proj2 (lookup_ge_None _ _)); [done|..];
      rewrite pcm_sound_length; lia.
Qed.

End Pcm.

(** *** Amplitude *)

(** C3 (the code departs from the claim).  The amplitude is the volume
    16383 shifted right by two bits, that is 4095, a quarter of the volume;
    it is not half the volume, 8191. *)
Theorem amp_is_volume_shifted_by_two :
  amp = of_Z 4095
  /\ Z.shiftr volume 2 = (volume / 4)%Z
  /\ (volume / 2)%Z = 8191%Z
  /\ amp <> of_Z (volume / 2).
Proof.
  split_and!; try (vm_compute; reflexivity).
  intros H; vm_compute in H; discriminate H.
Qed.

(** *** Size of the PCM output *)

Lemma WSPREncodeToPCM_byte_count sin enc big_endian_host j_calls j_loca
    j_powr j_offset lsb_mod :
  Z.of_nat
    (length
       (WSPREncodeToPCM sin enc big_endian_host j_calls j_loca j_powr
          j_offset lsb_mod))
  = (2 * (162 * 8192))%Z.
Proof.
  unfold WSPREncodeToPCM.
  rewrite byte_region_length, pcm_sound_length.
  rewrite !Nat2Z.inj_mul, WSPR_SYMBOL_LENGTH_Z, WSPR_SYMBOL_COUNT_Z.
  reflexivity.
Qed.

(** C4 as stated fails: the output for callsign K1ABC, locator FN42,
    power 37, offset 0 in USB mode does not have 2,657,024 bytes. *)
Lemma pcm_bytes_not_2657024 :
  Z.of_nat
    (length
       (WSPREncodeToPCM sin_taylor enc_cycle false "K1ABC" "FN42" 37 0
          false))
  <> 2657024%Z.
Proof. rewrite WSPREncodeToPCM_byte_count. discriminate. Qed.

(** C4, amended.  For every input the PCM encode operation returns a
    buffer of 162 x 8192 = 1,327,104 16-bit samples, 2,654,208 bytes in
    all; it has no failure path. *)
Theorem WSPREncodeToPCM_full_length sin enc big_endian_host j_calls j_loca
    j_powr j_offset lsb_mod :
  Z.of_nat
    (length
       (pcm_sound sin (enc j_calls j_loca (snprintf_02d j_powr)) j_offset
          lsb_mod))
  = 1327104%Z
  /\ Z.of_nat
       (length
          (WSPREncodeToPCM sin enc big_endian_host j_calls j_loca j_powr
             j_offset lsb_mod))
     = 2654208%Z.
Proof.
  split.
  - rewrite pcm_sound_length.
    rewrite Nat2Z.inj_mul, WSPR_SYMBOL_LENGTH_Z, WSPR_SYMBOL_COUNT_Z.
    reflexivity.
  - rewrite WSPREncodeToPCM_byte_count. reflexivity.
Qed.

(** *** LSB mode *)

Lemma pcm_symbol_used_mirror s :
  (0 <= s <= 3)%Z ->
  pcm_symbol_used true (uint8 s) = pcm_symbol_used false (uint8 (3 - s)).
Proof.
  intros Hs. unfold pcm_symbol_used.
  rewrite (uint8_small s) by lia. done.
Qed.

(** C7.  For every symbol value [s] from 0 to 3, every offset and every
    sample index, the LSB-mode sample of symbol [s] is the USB-mode sample
    of symbol [3 - s]; so the whole buffer of an LSB-mode run on symbols
    between 0 and 3 is the buffer of the USB-mode run on the mirrored
    symbols, and LSB mode on symbols all 0 equals USB mode on symbols
    all 3. *)
Theorem lsb_mode_mirrors_symbols (sin : double -> double) :
  (forall j_offset s step, (0 <= s <= 3)%Z ->
     pcm_tone sin j_offset true s step
     = pcm_tone sin j_offset false (3 - s) step)
  /\ (forall enc j_offset,
        (forall i, (i < WSPR_SYMBOL_COUNT)%nat -> (0 <= enc i <= 3)%Z) ->
        pcm_sound sin enc j_offset true
        = pcm_sound sin (fun i => (3 - enc i)%Z) j_offset false)
  /\ (forall j_offset,
        pcm_sound sin (fun _ => 0%Z) j_offset true
        = pcm_sound sin (fun _ => 3%Z) j_offset false).
Proof.
  assert (forall enc j_offset,
    (forall i, (i < WSPR_SYMBOL_COUNT)%nat -> (0 <= enc i <= 3)%Z) ->
    pcm_sound sin enc j_offset true
    = pcm_sound sin (fun i => (3 - enc i)%Z) j_offset false) as Hbuf.
  { intros enc j_offset Henc. apply pcm_sound_ext. intros i step Hi.
    unfold pcm_tone. by rewrite pcm_symbol_used_mirror by auto. }
  split_and!.
  - intros j_offset s step Hs. unfold pcm_tone, pcm_symbol_used.
    by rewrite uint8_small by lia.
  - exact Hbuf.
  - intros j_offset. apply (Hbuf (fun _ => 0%Z)). intros; lia.
Qed.

Lemma lsb_mode_mirrors_symbols_witness :
  pcm_tone sin_taylor 0 true 0 1 = pcm_tone sin_taylor 0 false 3 1
  /\ pcm_sound sin_taylor (fun _ => 2%Z) 0 true
     = pcm_sound sin_taylor (fun _ => (3 - 2)%Z) 0 false.
Proof.
  split.
  - apply (proj1 (lsb_mode_mirrors_symbols sin_taylor) 0%Z 0%Z 1%nat).
    lia.
  - apply (proj1 (proj2 (lsb_mode_mirrors_symbols sin_taylor))).
    intros i _. lia.
Defined.

(** *** Base tone *)

(** The phase step of the 1500 Hz tone is the binary64 number pi / 4. *)
Lemma pcm_theta_1500 : pcm_theta (of_Z 1500) = M_PI / of_Z 4.
Proof. vm_compute. reflexivity. Qed.

(** C8.  With all symbols 0, offset 0 and USB mode the tone frequency is
    exactly 1500, and the sample at position [step] of every block [i] is
    [amp * sin (1500 * 2 pi / 12000 * step)], computed in binary64 in this
    order and truncated to a 16-bit sample. *)
Theorem zero_symbols_base_tone (sin : double -> double) (enc : nat -> Z)
    (i step : nat) :
  (forall k, (k < WSPR_SYMBOL_COUNT)%nat -> enc k = 0%Z) ->
  (i < WSPR_SYMBOL_COUNT)%nat -> (step < WSPR_SYMBOL_LENGTH)%nat ->
  pcm_frequency 0 0 = of_Z 1500
  /\ pcm_sound sin enc 0 false !! (i * WSPR_SYMBOL_LENGTH + step)%nat
     = Some
         (short_of_double
            (amp * sin (of_Z 1500 * (of_Z 2 * M_PI) / of_Z 12000
                        * of_Z (Z.of_nat step)))).
Proof.
  intros Hzero Hi Hstep. split; [vm_compute; reflexivity|].
  rewrite pcm_sound_lookup by done. rewrite Hzero by done.
  unfold pcm_tone, pcm_symbol_used, pcm_sample.
  change (uint8 0) with 0%Z.
  replace (pcm_frequency 0 0) with (of_Z 1500) by (vm_compute; reflexivity).
  reflexivity.
Qed.

Lemma zero_symbols_base_tone_witness :
  pcm_sound sin_taylor (fun _ => 0%Z) 0 false
    !! (1 * WSPR_SYMBOL_LENGTH + 2)%nat
  = Some
      (short_of_double
         (amp * sin_taylor (of_Z 1500 * (of_Z 2 * M_PI) / of_Z 12000
                            * of_Z (Z.of_nat 2)))).
Proof.
  apply (zero_symbols_base_tone sin_taylor (fun _ => 0%Z) 1 2).
  - intros k _. reflexivity.
  - unfold WSPR_SYMBOL_COUNT. lia.
  - unfold WSPR_SYMBOL_LENGTH. lia.
Defined.

(** *** The frequency list *)

Lemma frequencies_fill enc j_offset lsb_mode :
  frequencies enc j_offset lsb_mode
  = fill
      (fun i => frequency_entry j_offset lsb_mode (symbol_array enc !!! i))
      0 WSPR_SYMBOL_COUNT (replicate WSPR_SYMBOL_COUNT 0%Z).
Proof. reflexivity. Qed.

Lemma frequencies_length enc j_offset lsb_mode :
  length (frequencies enc j_offset lsb_mode) = WSPR_SYMBOL_COUNT.
Proof.
  rewrite frequencies_fill, fill_length. apply length_replicate.
Qed.

(** Entry [i] of the array is the entry computed from symbol [i]. *)
Lemma frequencies_lookup enc j_offset lsb_mode i :
  (i < WSPR_SYMBOL_COUNT)%nat ->
  frequencies enc j_offset lsb_mode !! i
  = Some (frequency_entry j_offset lsb_mode (uint8 (enc i))).
Proof.
  intros Hi. rewrite frequencies_fill.
  rewrite fill_lookup by (rewrite length_replicate; lia).
  case_decide; [|lia].
  rewrite Nat.sub_0_r. by rewrite symbol_array_total.
Qed.

(** The four tones at offset 0, in USB and in LSB mode. *)
Lemma frequency_entry_table :
  map (frequency_entry 0 false) [0; 1; 2; 3]%Z
  = [150000; 150146; 150292; 150439]%Z
  /\ map (frequency_entry 0 true) [0; 1; 2; 3]%Z
     = [150439; 150292; 150146; 150000]%Z.
Proof. split; vm_compute; reflexivity. Qed.

(** For the offsets from -200 Hz to 200 Hz and the four symbol values, in
    both modes, the binary64 computation and the cast give the entry of exact
    arithmetic. *)
Lemma frequency_entry_exact :
  forallb
    (fun j_offset =>
       forallb
         (fun sym =>
            (frequency_entry j_offset false sym
             =? exact_frequency_entry j_offset false sym)%Z
            && (frequency_entry j_offset true sym
                =? exact_frequency_entry j_offset true sym)%Z)
         [0; 1; 2; 3]%Z)
    (map (fun i => (Z.of_nat i - 200)%Z) (seq 0 401)) = true.
Proof. vm_compute. reflexivity. Qed.

(** The output has 162 x 8 = 1296 bytes when both allocations succeed,
    and there is no output when one fails. *)
Lemma WSPREncodeToFrequencies_result enc big_endian_host malloc_ok
    new_array_ok j_calls j_local j_powr j_offset lsb_mode :
  match
    WSPREncodeToFrequencies enc big_endian_host malloc_ok new_array_ok
      j_calls j_local j_powr j_offset lsb_mode
  with
  | Some bytes =>
      malloc_ok = true /\ new_array_ok = true /\ length bytes = 1296%nat
  | None => malloc_ok = false \/ new_array_ok = false
  end.
Proof.
  unfold WSPREncodeToFrequencies.
  destruct malloc_ok, new_array_ok; cbn [negb]; auto.
  split_and!; [done..|].
  by rewrite byte_region_length, frequencies_length.
Qed.

(** The bytes of the entry 150000 in the two byte orders. *)
Lemma entry_150000_bytes :
  byte_region true sizeof_int64 [150000%Z]
  = [0; 0; 0; 0; 0; 2; 73; -16]%Z
  /\ byte_region false sizeof_int64 [150000%Z]
     = [-16; 73; 2; 0; 0; 0; 0; 0]%Z.
Proof. split; vm_compute; reflexivity. Qed.

(** C5 as stated fails: for symbol 2 at offset 0 in USB mode the frequency
    times 100 is 150292.96; the entry is 150292, the nearest integer is
    150293. *)
Lemma entry_truncated_not_rounded :
  frequencies (enc_cycle "K1ABC" "FN42" "37") 0 false !! 2%nat
  = Some 150292%Z
  /\ spec_frequency_entry 0 false 2 = Some 150293%Z
  /\ frequencies (enc_cycle "K1ABC" "FN42" "37") 0 false !! 2%nat
     <> spec_frequency_entry 0 false
          (uint8 (enc_cycle "K1ABC" "FN42" "37" 2)).
Proof.
  split_and!; try (vm_compute; reflexivity).
  intros H; vm_compute in H; discriminate H.
Qed.

(** C5, amended.  Every output entry is the frequency in Hz times 100
    converted to a 64-bit integer by the C cast, that is truncated toward
    zero; for symbol value 0 with offset 0 in USB mode the product is
    exactly 150000 and so is the entry. *)
Theorem frequency_entries_truncated (enc : nat -> Z) (j_offset : Z)
    (lsb_mode : bool) (i : nat) :
  (i < WSPR_SYMBOL_COUNT)%nat ->
  frequencies enc j_offset lsb_mode !! i
  = Some
      (int64_of_double
         (frequency_hz j_offset lsb_mode (uint8 (enc i)) * of_Z 100))
  /\ frequency_hz 0 false 0 * of_Z 100 = of_Z 150000
  /\ trunc (of_Z 150000) = Some 150000%Z
  /\ (enc i = 0%Z -> frequencies enc 0 false !! i = Some 150000%Z).
Proof.
  intros Hi. split_and!.
  - by rewrite frequencies_lookup.
  - vm_compute. reflexivity.
  - vm_compute. reflexivity.
  - intros Hsym. rewrite frequencies_lookup by done. rewrite Hsym.
    vm_compute. reflexivity.
Qed.

Lemma frequency_entries_truncated_witness :
  (5 < WSPR_SYMBOL_COUNT)%nat
  /\ frequencies (fun _ => 0%Z) 0 false !! 5%nat = Some 150000%Z
  /\ frequencies (enc_cycle "K1ABC" "FN42" "37") 7 true !! 5%nat
     = Some
         (int64_of_double
            (frequency_hz 7 true (uint8 (enc_cycle "K1ABC" "FN42" "37" 5))
             * of_Z 100)).
Proof.
  assert (5 < WSPR_SYMBOL_COUNT)%nat as H5 by (unfold WSPR_SYMBOL_COUNT; lia).
  split; [exact H5|]. split.
  - apply (proj2 (proj2 (proj2
      (frequency_entries_truncated (fun _ => 0%Z) 0 false 5 H5)))).
    reflexivity.
  - apply (proj1
      (frequency_entries_truncated (enc_cycle "K1ABC" "FN42" "37") 7 true
         5 H5)).
Defined.

End Synth_Facts.
